(** * pinkponk: the Readwise pagination loop

    A shallow embedding of [src/imperative_shell/readwise.py]: the
    coroutine [get_list_of_all_articles] and the dataclass [ReadwiseItem].

    The HTTP server is the environment.  The client awaits every response
    before it sends the next request, so a run is determined by the API key
    and by the sequence of responses the server gives, one per request; the
    run also leaves a trace, the requests it sent.  A finite script of
    responses plays the role of a mock transport: when the loop sends a
    request the script has no response for, the run is [Pending]. *)

From Stdlib Require Import String Ascii List ZArith Bool Arith Lia.
Import ListNotations.
Open Scope string_scope.
Open Scope list_scope.
Set Warnings "-register-all".

(** ** Python values

    What [response.json()] can produce, and what the loop stores in its
    variables: the image of JSON in Python. *)

Inductive pyval : Type :=
| PNone
| PBool (b : bool)
| PInt (n : Z)
| PFloat (literal : string)
| PStr (s : string)
| PList (xs : list pyval)
| PDict (kvs : list (string * pyval)).

(** The exceptions the function can let escape. *)
Inductive exn : Type :=
| JSONDecodeError
| TypeError
| KeyError (k : string)
| AttributeError.

(** Evaluation of an expression: a value or a raised exception. *)
Inductive result (A : Type) : Type :=
| Ok (a : A)
| Exc (e : exn).
Arguments Ok {A} a.
Arguments Exc {A} e.

Definition bind {A B : Type} (m : result A) (k : A -> result B) : result B :=
  match m with
  | Ok a => k a
  | Exc e => Exc e
  end.

Notation "x <- m ;; k" := (bind m (fun x => k))
  (at level 61, m at next level, right associativity).

Fixpoint mapM {A B : Type} (f : A -> result B) (xs : list A) : result (list B) :=
  match xs with
  | [] => Ok []
  | x :: xs' => y <- f x ;; ys <- mapM f xs' ;; Ok (y :: ys)
  end.

(** A dict is its bindings in insertion order; a key is looked up at its
    first binding (a dict built by the JSON decoder binds a key once). *)
Fixpoint dict_get (k : string) (kvs : list (string * pyval)) : option pyval :=
  match kvs with
  | [] => None
  | (k', v) :: rest => if String.eqb k' k then Some v else dict_get k rest
  end.

Definition is_some {A : Type} (o : option A) : bool :=
  match o with Some _ => true | None => false end.

(** [v == s] for a string literal [s]. *)
Definition py_eq_str (v : pyval) (s : string) : bool :=
  match v with
  | PStr s' => String.eqb s' s
  | _ => false
  end.

(** [v is None]. *)
Definition py_is_none (v : pyval) : bool :=
  match v with
  | PNone => true
  | _ => false
  end.

(** [k in v] for a string literal [k]: key membership in a dict, element
    membership in a list, substring test in a str; anything else is not a
    container and raises TypeError. *)
Definition py_contains (k : string) (v : pyval) : result bool :=
  match v with
  | PDict kvs => Ok (is_some (dict_get k kvs))
  | PList xs => Ok (existsb (fun x => py_eq_str x k) xs)
  | PStr s => Ok (is_some (String.index 0 k s))
  | _ => Exc TypeError
  end.

(** [v[k]] for a string literal [k]: only a dict can be subscripted with a
    str. *)
Definition py_getitem (v : pyval) (k : string) : result pyval :=
  match v with
  | PDict kvs =>
      match dict_get k kvs with
      | Some x => Ok x
      | None => Exc (KeyError k)
      end
  | _ => Exc TypeError
  end.

(** [v.get(k, default)]: a dict method. *)
Definition py_get (v : pyval) (k : string) (default : pyval) : result pyval :=
  match v with
  | PDict kvs =>
      match dict_get k kvs with
      | Some x => Ok x
      | None => Ok default
      end
  | _ => Exc AttributeError
  end.

(** [for item in v]: the elements of a list, the keys of a dict, the
    characters of a str (one-character strs; a str is taken as its bytes). *)
Definition py_iter (v : pyval) : result (list pyval) :=
  match v with
  | PList xs => Ok xs
  | PDict kvs => Ok (map (fun kv => PStr (fst kv)) kvs)
  | PStr s => Ok (map (fun c => PStr (String c EmptyString)) (list_ascii_of_string s))
  | _ => Exc TypeError
  end.

(** ** The data model *)

(** [@dataclass(frozen=True, slots=True) class ReadwiseItem]: the field
    annotations are not checked when an instance is built, so a field holds
    whatever value the response had. *)
Record ReadwiseItem : Type := mkReadwiseItem {
  id : pyval;
  url : pyval;
  title : pyval
}.

(** What the loop reads of an [httpx.Response]: the [is_error] property and
    the outcome of [response.json()], [None] when the body is not valid
    JSON (the decoder then raises). *)
Record Response : Type := mkResponse {
  is_error : bool;
  body : option pyval
}.

Definition json (response : Response) : result pyval :=
  match body response with
  | Some v => Ok v
  | None => Exc JSONDecodeError
  end.

(** The arguments of one [client.get] call. *)
Record Request : Type := mkRequest {
  req_url : string;
  req_headers : list (string * string);
  req_params : option (list (string * pyval))
}.

Definition make_request (READWISE_API_KEY : string) (next_page_cursor : pyval) : Request :=
  {| req_url := "https://readwise.io/api/v3/list/";
     req_headers := [("Authorization", ("Token " ++ READWISE_API_KEY)%string)];
     req_params := if negb (py_is_none next_page_cursor)
                   then Some [("pageCursor", next_page_cursor)]
                   else None |}.

(** ** The loop *)

(** The local variables of [get_list_of_all_articles]. *)
Record state : Type := mkState {
  results : list ReadwiseItem;
  parsed_all_results : bool;
  next_page_cursor : pyval
}.

Definition initial_state : state :=
  {| results := []; parsed_all_results := false; next_page_cursor := PNone |}.

(** How one pass through the loop body ends. *)
Inductive flow : Type :=
| Continue (st : state)
| Return (v : option (list ReadwiseItem))
| Raise (e : exn).

(** Lines 36-39: the pagination handling. *)
Definition pagination (json_response : pyval) (st : state) : result state :=
  has_cursor <- py_contains "nextPageCursor" json_response ;;
  if (has_cursor : bool) then
    cursor <- py_getitem json_response "nextPageCursor" ;;
    Ok {| results := results st;
          parsed_all_results :=
            if py_is_none cursor || py_eq_str cursor ""
            then true else parsed_all_results st;
          next_page_cursor := cursor |}
  else Ok st.

(** Line 42: one element of the comprehension. *)
Definition parse_item (item : pyval) : result ReadwiseItem :=
  item_id <- py_getitem item "id" ;;
  item_url <- py_getitem item "url" ;;
  item_title <- py_get item "title" PNone ;;
  Ok (mkReadwiseItem item_id item_url item_title).

(** Lines 41-44: the list comprehension over [json_response["results"]]. *)
Definition parse_items (json_response : pyval) : result (list ReadwiseItem) :=
  entries <- py_getitem json_response "results" ;;
  items <- py_iter entries ;;
  mapM parse_item items.

(** Lines 27-49, after the response of line 18 has arrived.  The test of
    line 46 is on a list, which is never None. *)
Definition loop_body (st : state) (response : Response) : flow :=
  if is_error response then Return None
  else
    match json response with
    | Exc e => Raise e
    | Ok json_response =>
        match py_contains "results" json_response with
        | Exc e => Raise e
        | Ok false => Return None
        | Ok true =>
            match pagination json_response st with
            | Exc e => Raise e
            | Ok st1 =>
                match parse_items json_response with
                | Exc e => Raise e
                | Ok parsed_items =>
                    Continue {| results := results st1 ++ parsed_items;
                                parsed_all_results := parsed_all_results st1;
                                next_page_cursor := next_page_cursor st1 |}
                end
            end
        end
    end.

(** How a run ends: the function returned (a list, or None), an exception
    escaped it, or it awaits a response the script does not hold. *)
Inductive outcome : Type :=
| Returned (v : option (list ReadwiseItem))
| Raised (e : exn)
| Pending.

(** Lines 17-51: the while loop, from a given state, against the responses
    still to come.  The result is the outcome and the requests sent. *)
Fixpoint while_loop (READWISE_API_KEY : string) (responses : list Response)
    (st : state) : outcome * list Request :=
  if parsed_all_results st then (Returned (Some (results st)), [])
  else
    let request := make_request READWISE_API_KEY (next_page_cursor st) in
    match responses with
    | [] => (Pending, [request])
    | response :: later =>
        match loop_body st response with
        | Continue st' =>
            let (o, sent) := while_loop READWISE_API_KEY later st' in
            (o, request :: sent)
        | Return v => (Returned v, [request])
        | Raise e => (Raised e, [request])
        end
    end.

Definition get_list_of_all_articles (READWISE_API_KEY : string)
    (responses : list Response) : outcome * list Request :=
  while_loop READWISE_API_KEY responses initial_state.

(** The return value, and the requests sent, of a run. *)
Definition run_outcome (READWISE_API_KEY : string) (responses : list Response) : outcome :=
  fst (get_list_of_all_articles READWISE_API_KEY responses).

Definition run_requests (READWISE_API_KEY : string) (responses : list Response)
  : list Request :=
  snd (get_list_of_all_articles READWISE_API_KEY responses).

(** ** Responses, as the specification describes them *)

(** Field [k] of a response whose body is a JSON object. *)
Definition field (k : string) (response : Response) : option pyval :=
  match body response with
  | Some (PDict kvs) => dict_get k kvs
  | _ => None
  end.

(** A cursor value that ends the pagination: null or the empty string. *)
Definition empty_or_null (v : pyval) : bool :=
  match v with
  | PNone => true
  | PStr EmptyString => true
  | _ => false
  end.

(** The Item of a results entry: an object with [id] and [url], its
    [title] when it has one. *)
Definition item_of_entry (entry : pyval) : option ReadwiseItem :=
  match entry with
  | PDict kvs =>
      match dict_get "id" kvs, dict_get "url" kvs with
      | Some i, Some u =>
          Some (mkReadwiseItem i u
                  (match dict_get "title" kvs with
                   | Some t => t
                   | None => PNone
                   end))
      | _, _ => None
      end
  | _ => None
  end.

Fixpoint items_of_entries (entries : list pyval) : option (list ReadwiseItem) :=
  match entries with
  | [] => Some []
  | entry :: rest =>
      match item_of_entry entry, items_of_entries rest with
      | Some it, Some its => Some (it :: its)
      | _, _ => None
      end
  end.

(** The items of a successful page: the status is not an error, the body is
    an object, and its [results] field is an array of entries that each have
    [id] and [url]. *)
Definition page_items (response : Response) : option (list ReadwiseItem) :=
  if is_error response then None
  else
    match field "results" response with
    | Some (PList entries) => items_of_entries entries
    | _ => None
    end.

(** A successful page after which the loop goes on: its cursor does not end
    the pagination. *)
Definition intermediate_page (response : Response) : bool :=
  is_some (page_items response) &&
  match field "nextPageCursor" response with
  | Some c => negb (empty_or_null c)
  | None => true
  end.

(** The items of a sequence of pages, in page order. *)
Definition items_of_pages (pages : list Response) : list ReadwiseItem :=
  flat_map (fun r => match page_items r with Some its => its | None => [] end) pages.

(** The cursor the server supplied most recently, over the responses received
    so far (oldest first), starting from [acc]. *)
Definition supplied (acc : option pyval) (response : Response) : option pyval :=
  match field "nextPageCursor" response with
  | Some c => Some c
  | None => acc
  end.

Definition last_supplied_cursor (received : list Response) : option pyval :=
  fold_left supplied received None.

(** The query parameters that thread cursor [c] back. *)
Definition params_of (c : option pyval) : option (list (string * pyval)) :=
  match c with
  | Some v => Some [("pageCursor", v)]
  | None => None
  end.

(** The state after the loop body has handled a successful page. *)
Definition state_after (st : state) (r : Response) (its : list ReadwiseItem) : state :=
  {| results := results st ++ its;
     parsed_all_results :=
       match field "nextPageCursor" r with
       | Some c => if empty_or_null c then true else parsed_all_results st
       | None => parsed_all_results st
       end;
     next_page_cursor :=
       match field "nextPageCursor" r with
       | Some c => c
       | None => next_page_cursor st
       end |}.

(** A page as the server sends it: status 200, the entries, and the cursor
    field when there is one. *)
Definition page (entries : list pyval) (cursor : option pyval) : Response :=
  {| is_error := false;
     body := Some (PDict (("results", PList entries) ::
                          match cursor with
                          | Some c => [("nextPageCursor", c)]
                          | None => []
                          end)) |}.

Definition entry (i u : string) : pyval :=
  PDict [("id", PStr i); ("url", PStr u)].

Definition titled_entry (i u t : string) : pyval :=
  PDict [("id", PStr i); ("url", PStr u); ("title", PStr t)].

Definition item (i u : string) : ReadwiseItem :=
  mkReadwiseItem (PStr i) (PStr u) PNone.

Definition cursor_value (c : option pyval) : pyval :=
  match c with
  | Some v => v
  | None => PNone
  end.

Definition is_dict (v : pyval) : bool :=
  match v with
  | PDict _ => true
  | _ => false
  end.

(** The two lookup failures of line 42. *)
Definition lookup_failure (e : exn) : Prop :=
  e = KeyError "id" \/ e = KeyError "url".

(** The three conditions that end the loop in the iteration that meets
    them: an error status, no [results] field in the body, a
    [nextPageCursor] field that is null or empty. *)
Definition ends_loop (r : Response) : bool :=
  is_error r
  || negb (is_some (field "results" r))
  || match field "nextPageCursor" r with
     | Some c => empty_or_null c
     | None => false
     end.

(** ** What a run has read *)

(** The items the comprehension of lines 41-44 builds from a response, none
    when it builds no list. *)
Definition parsed_of (response : Response) : list ReadwiseItem :=
  match json response with
  | Ok json_response =>
      match parse_items json_response with
      | Ok parsed_items => parsed_items
      | Exc _ => []
      end
  | Exc _ => []
  end.

(** A JSON array. *)
Definition is_list (v : pyval) : bool :=
  match v with
  | PList _ => true
  | _ => false
  end.

(** What lines 32-44 can raise once the body has been decoded. *)
Definition type_or_lookup_error (e : exn) : Prop :=
  e = TypeError \/ lookup_failure e.

(** ** The test

    [tests/test_imperative_shell.py].  [getenv] gives the key or None; the
    awaited call binds tighter than [is not None], so [articles] is a bool,
    and the last assertion is on that bool. *)
Inductive test_result : Type :=
| Passed
| AssertionFailed
| Errored (e : exn)
| Awaiting.

Definition test_readwise (api_key : option string) (responses : list Response)
  : test_result :=
  match api_key with
  | None => AssertionFailed
  | Some key =>
      match run_outcome key responses with
      | Returned v =>
          let articles := PBool (is_some v) in
          if negb (py_is_none articles) then Passed else AssertionFailed
      | Raised e => Errored e
      | Pending => Awaiting
      end
  end.

(** ** Status codes

    httpx derives [is_error] from the status code: it holds of the codes
    400 to 599, and [is_success] of the codes 200 to 299.  A response as the
    server sends it has a status code; the loop reads it through
    [is_error] only. *)
Record HttpResponse : Type := mkHttpResponse {
  status_code : Z;
  content : option pyval
}.

Definition status_is_error (code : Z) : bool :=
  ((400 <=? code) && (code <=? 599))%Z.

Definition status_is_success (code : Z) : bool :=
  ((200 <=? code) && (code <=? 299))%Z.

Definition received (h : HttpResponse) : Response :=
  {| is_error := status_is_error (status_code h); body := content h |}.

(** The body of [r] under status [code]. *)
Definition with_status (code : Z) (r : Response) : HttpResponse :=
  {| status_code := code; content := body r |}.

(** ** Sample responses *)

Definition first_page : Response :=
  page [entry "1" "u1"] (Some (PStr "c1")).

Definition last_page : Response :=
  page [titled_entry "2" "u2" "T"] (Some PNone).

Definition server_error : Response :=
  {| is_error := true; body := None |}.

Definition not_json : Response :=
  {| is_error := false; body := None |}.

Definition no_results : Response :=
  {| is_error := false; body := Some (PDict [("detail", PStr "Not found.")]) |}.

Definition broken_page : Response :=
  page [entry "1" "u1"; PDict [("url", PStr "u2")]] (Some PNone).

Definition null_body : Response :=
  {| is_error := false; body := Some PNone |}.

(** ** The loop body on the kinds of responses *)

Lemma empty_or_null_spec (v : pyval) :
  py_is_none v || py_eq_str v "" = empty_or_null v.
Proof.
  destruct v as [ | b | n | l | s | xs | kvs ]; try reflexivity.
  destruct s; reflexivity.
Qed.

Lemma loop_body_is_error (st : state) (r : Response) :
  is_error r = true -> loop_body st r = Return None.
Proof. intros H. unfold loop_body. now rewrite H. Qed.

Lemma loop_body_not_json (st : state) (r : Response) :
  is_error r = false -> body r = None -> loop_body st r = Raise JSONDecodeError.
Proof. intros He Hb. unfold loop_body, json. now rewrite He, Hb. Qed.

Lemma loop_body_no_results (st : state) (r : Response) (kvs : list (string * pyval)) :
  is_error r = false -> body r = Some (PDict kvs) -> dict_get "results" kvs = None ->
  loop_body st r = Return None.
Proof.
  intros He Hb Hr. unfold loop_body, json. rewrite He, Hb. cbn [py_contains].
  now rewrite Hr.
Qed.

Lemma mapM_parse_item (entries : list pyval) (its : list ReadwiseItem) :
  items_of_entries entries = Some its -> mapM parse_item entries = Ok its.
Proof.
  revert its. induction entries as [ | entry rest IH ]; intros its H; cbn in H.
  - now inversion H.
  - destruct (item_of_entry entry) as [ it | ] eqn:Hit; [ | discriminate ].
    destruct (items_of_entries rest) as [ its' | ] eqn:Hrest; [ | discriminate ].
    inversion H; subst its; clear H.
    cbn [mapM]. rewrite (IH its' eq_refl).
    destruct entry as [ | | | | | | kvs ]; try discriminate.
    cbn in Hit. unfold parse_item. cbn [py_getitem py_get bind].
    destruct (dict_get "id" kvs) as [ i | ]; [ | discriminate ].
    destruct (dict_get "url" kvs) as [ u | ]; [ | discriminate ].
    inversion Hit; subst it. cbn.
    now destruct (dict_get "title" kvs).
Qed.

Lemma loop_body_page (st : state) (r : Response) (its : list ReadwiseItem) :
  page_items r = Some its -> loop_body st r = Continue (state_after st r its).
Proof.
  unfold page_items, state_after, field, loop_body, json. intros H.
  destruct (is_error r); [ discriminate | ].
  destruct (body r) as [ [ | | | | | | kvs ] | ]; try discriminate.
  cbn [py_contains]. 
  destruct (dict_get "results" kvs) as [ v | ] eqn:Hres; [ | discriminate ].
  destruct v as [ | | | | | entries | ]; try discriminate.
  cbn [is_some]. unfold pagination, parse_items. cbn [py_contains py_getitem bind].
  rewrite Hres. cbn [bind py_iter]. rewrite (mapM_parse_item _ _ H).
  destruct (dict_get "nextPageCursor" kvs) as [ c | ]; cbn [is_some bind].
  - cbn. now rewrite empty_or_null_spec.
  - now destruct st.
Qed.

(** ** Runs *)

Lemma while_loop_done (key : string) (rs : list Response) (st : state) :
  parsed_all_results st = true ->
  while_loop key rs st = (Returned (Some (results st)), []).
Proof. intros H. destruct rs; cbn; now rewrite H. Qed.

Lemma while_loop_step (key : string) (r : Response) (later : list Response)
    (st : state) :
  parsed_all_results st = false ->
  while_loop key (r :: later) st =
  match loop_body st r with
  | Continue st' =>
      (fst (while_loop key later st'),
       make_request key (next_page_cursor st) :: snd (while_loop key later st'))
  | Return v => (Returned v, [make_request key (next_page_cursor st)])
  | Raise e => (Raised e, [make_request key (next_page_cursor st)])
  end.
Proof.
  intros H. cbn [while_loop]. rewrite H.
  destruct (loop_body st r); try reflexivity.
  now destruct (while_loop key later st0).
Qed.

Lemma intermediate_page_inv (r : Response) :
  intermediate_page r = true ->
  exists its, page_items r = Some its /\
    forall st, parsed_all_results st = false ->
               parsed_all_results (state_after st r its) = false.
Proof.
  unfold intermediate_page. intros H. apply andb_prop in H as [Hits Hc].
  destruct (page_items r) as [ its | ]; [ | discriminate ].
  exists its. split; [ reflexivity | ]. intros st Hst. cbn.
  destruct (field "nextPageCursor" r) as [ c | ]; [ | exact Hst ].
  destruct (empty_or_null c); [ discriminate | exact Hst ].
Qed.

(** The loop runs through intermediate pages: it gathers their items, sends
    one request for each, and goes on with what comes later. *)
Lemma while_loop_pages (key : string) (earlier later : list Response) :
  forallb intermediate_page earlier = true ->
  forall st, parsed_all_results st = false ->
  exists st',
    parsed_all_results st' = false /\
    results st' = results st ++ items_of_pages earlier /\
    fst (while_loop key (earlier ++ later) st) = fst (while_loop key later st') /\
    length (snd (while_loop key (earlier ++ later) st)) =
    length earlier + length (snd (while_loop key later st')).
Proof.
  induction earlier as [ | r earlier IH ]; intros Hall st Hst.
  - exists st. cbn. now rewrite app_nil_r.
  - cbn [forallb] in Hall. apply andb_prop in Hall as [Hr Hall].
    destruct (intermediate_page_inv r Hr) as (its & Hits & Hflag).
    destruct (IH Hall (state_after st r its) (Hflag st Hst))
      as (st' & Hst' & Hres & Hout & Hlen).
    exists st'. cbn [app]. rewrite (while_loop_step key r _ st Hst).
    rewrite (loop_body_page st r its Hits). cbn [fst snd length].
    repeat split; try assumption.
    + rewrite Hres. cbn [state_after results items_of_pages flat_map].
      rewrite Hits. now rewrite app_assoc.
    + now rewrite Hlen.
Qed.

(** From the start of the function. *)
Lemma run_pages (key : string) (earlier later : list Response) :
  forallb intermediate_page earlier = true ->
  exists st',
    parsed_all_results st' = false /\
    results st' = items_of_pages earlier /\
    run_outcome key (earlier ++ later) = fst (while_loop key later st') /\
    length (run_requests key (earlier ++ later)) =
    length earlier + length (snd (while_loop key later st')).
Proof.
  intros Hall.
  destruct (while_loop_pages key earlier later Hall initial_state eq_refl)
    as (st' & H1 & H2 & H3 & H4).
  exists st'. now repeat split.
Qed.

(** ** Failure *)

(** When [is_error] holds of a response, or its body is a JSON object that
    has no [results] field, the function returns None, whatever the number
    of pages fetched before; the items gathered so far are dropped. *)
Lemma failure_drops_earlier_pages (key : string) (earlier later : list Response)
    (r : Response) :
  forallb intermediate_page earlier = true ->
  is_error r = true \/
  (exists kvs, body r = Some (PDict kvs) /\ dict_get "results" kvs = None) ->
  run_outcome key (earlier ++ r :: later) = Returned None.
Proof.
  intros Hall Hfail.
  destruct (run_pages key earlier (r :: later) Hall) as (st' & Hst' & _ & Hout & _).
  rewrite Hout, (while_loop_step key r later st' Hst').
  destruct (is_error r) eqn:He.
  - now rewrite (loop_body_is_error st' r He).
  - destruct Hfail as [ Hfail | (kvs & Hb & Hr) ]; [ discriminate | ].
    now rewrite (loop_body_no_results st' r kvs He Hb Hr).
Qed.

(** C2, as the code has it: a response whose body is not valid JSON makes
    the function return None only when its status is an error, which is
    tested first; otherwise [response.json()] raises, nothing catches the
    exception, and it escapes the function. *)
Theorem unparsable_body (key : string) (earlier later : list Response)
    (r : Response) :
  forallb intermediate_page earlier = true ->
  body r = None ->
  run_outcome key (earlier ++ r :: later) =
  if is_error r then Returned None else Raised JSONDecodeError.
Proof.
  intros Hall Hb.
  destruct (run_pages key earlier (r :: later) Hall) as (st' & Hst' & _ & Hout & _).
  rewrite Hout, (while_loop_step key r later st' Hst').
  destruct (is_error r) eqn:He.
  - now rewrite (loop_body_is_error st' r He).
  - now rewrite (loop_body_not_json st' r He Hb).
Qed.

(** ** Pages *)

(** The iteration that handles a terminal page is the last one. *)
Lemma while_loop_terminal_page (key : string) (r : Response) (later : list Response)
    (its : list ReadwiseItem) (c : pyval) (st : state) :
  parsed_all_results st = false ->
  page_items r = Some its ->
  field "nextPageCursor" r = Some c ->
  empty_or_null c = true ->
  while_loop key (r :: later) st =
  (Returned (Some (results st ++ its)), [make_request key (next_page_cursor st)]).
Proof.
  intros Hst Hits Hc Hend.
  rewrite (while_loop_step key r later st Hst), (loop_body_page st r its Hits).
  rewrite while_loop_done; [ reflexivity | ].
  cbn [state_after parsed_all_results]. now rewrite Hc, Hend.
Qed.

(** C4: a successful page whose [nextPageCursor] is the empty string or
    null ends the pagination in the iteration that handles it, and its own
    items are appended first: the function returns the items of the earlier
    pages followed by the items of this page, after one request per page,
    and later responses are never asked for. *)
Theorem terminal_page_items_included (key : string) (earlier later : list Response)
    (r : Response) (its : list ReadwiseItem) (c : pyval) :
  forallb intermediate_page earlier = true ->
  page_items r = Some its ->
  field "nextPageCursor" r = Some c ->
  empty_or_null c = true ->
  run_outcome key (earlier ++ r :: later) =
    Returned (Some (items_of_pages earlier ++ its)) /\
  length (run_requests key (earlier ++ r :: later)) = S (length earlier).
Proof.
  intros Hall Hits Hc Hend.
  destruct (run_pages key earlier (r :: later) Hall)
    as (st' & Hst' & Hres & Hout & Hlen).
  rewrite Hout, Hlen.
  rewrite (while_loop_terminal_page key r later its c st' Hst' Hits Hc Hend).
  cbn [fst snd length]. rewrite Hres. split; [ reflexivity | lia ].
Qed.

(** A successful page without the [nextPageCursor] field leaves both the
    flag and the cursor as they were: the loop sends the same request
    again, and does so for as long as such pages come back. *)
Lemma absent_cursor_repeats (key : string) (r : Response) (its : list ReadwiseItem) :
  page_items r = Some its ->
  field "nextPageCursor" r = None ->
  forall (n : nat) (st : state),
    parsed_all_results st = false ->
    while_loop key (repeat r n) st =
    (Pending, repeat (make_request key (next_page_cursor st)) (S n)).
Proof.
  intros Hits Hc. induction n as [ | n IH ]; intros st Hst.
  - cbn. now rewrite Hst.
  - cbn [repeat]. rewrite (while_loop_step key r _ st Hst).
    rewrite (loop_body_page st r its Hits).
    assert (Hflag : parsed_all_results (state_after st r its) = false)
      by (cbn; now rewrite Hc).
    rewrite (IH _ Hflag). cbn [fst snd state_after next_page_cursor].
    now rewrite Hc.
Qed.

(** C1, where the code departs from it: a 200 response with one item and no
    [nextPageCursor] field does not end the run.  After it the function
    sends the first request again, and against a server that keeps giving
    this answer it never returns: however many responses arrive, one more
    request is out. *)
Theorem absent_cursor_single_page_never_returns (key : string) (n : nat) :
  let p := page [entry "1" "u1"] None in
  page_items p = Some [item "1" "u1"] /\
  field "nextPageCursor" p = None /\
  run_outcome key (repeat p n) = Pending /\
  run_requests key (repeat p n) = repeat (make_request key PNone) (S n).
Proof.
  intros p. split; [ reflexivity | ]. split; [ reflexivity | ].
  unfold run_outcome, run_requests, get_list_of_all_articles.
  rewrite (absent_cursor_repeats key p [item "1" "u1"] eq_refl eq_refl n
             initial_state eq_refl).
  split; reflexivity.
Qed.

(** C5, where the code departs from it: after P1 (cursor abc, two items)
    and P2 (no cursor field, one item) the function has not returned the
    three items; it has sent a third request, again with pageCursor=abc, and
    it goes on like this for as long as P2 is the answer. *)
Theorem absent_cursor_second_page_never_returns (key : string) (n : nat) :
  let p1 := page [entry "1" "u1"; entry "2" "u2"] (Some (PStr "abc")) in
  let p2 := page [entry "3" "u3"] None in
  run_outcome key [p1; p2] = Pending /\
  run_requests key [p1; p2] =
    [make_request key PNone; make_request key (PStr "abc");
     make_request key (PStr "abc")] /\
  run_outcome key (p1 :: repeat p2 n) = Pending /\
  run_requests key (p1 :: repeat p2 n) =
    make_request key PNone :: repeat (make_request key (PStr "abc")) (S n).
Proof.
  intros p1 p2. split; [ reflexivity | ]. split; [ reflexivity | ].
  unfold run_outcome, run_requests, get_list_of_all_articles.
  rewrite (while_loop_step key p1 _ initial_state eq_refl).
  rewrite (loop_body_page initial_state p1 [item "1" "u1"; item "2" "u2"] eq_refl).
  rewrite (absent_cursor_repeats key p2 [item "3" "u3"] eq_refl eq_refl n
             (state_after initial_state p1 [item "1" "u1"; item "2" "u2"]) eq_refl).
  split; reflexivity.
Qed.

(** ** Items *)

Lemma items_of_entries_app (xs ys : list pyval) (a b : list ReadwiseItem) :
  items_of_entries xs = Some a ->
  items_of_entries ys = Some b ->
  items_of_entries (xs ++ ys) = Some (a ++ b).
Proof.
  revert a. induction xs as [ | x xs IH ]; intros a Ha Hb; cbn in *.
  - inversion Ha. exact Hb.
  - destruct (item_of_entry x) as [ it | ]; [ | discriminate ].
    destruct (items_of_entries xs) as [ its | ]; [ | discriminate ].
    inversion Ha. now rewrite (IH its eq_refl Hb).
Qed.

(** C6: a results entry with [id] and [url] whose [title] is absent or null
    becomes a ReadwiseItem with that id and that url and with title None;
    the fetch does not fail on it: on a terminal page where the other
    entries are well formed too, the function returns the page's items,
    this one in its place. *)
Theorem optional_title (key : string) (fields : list (string * pyval))
    (i u cursor : pyval) (before after : list pyval) (b a : list ReadwiseItem) :
  dict_get "id" fields = Some i ->
  dict_get "url" fields = Some u ->
  dict_get "title" fields = None \/ dict_get "title" fields = Some PNone ->
  items_of_entries before = Some b ->
  items_of_entries after = Some a ->
  empty_or_null cursor = true ->
  parse_item (PDict fields) = Ok (mkReadwiseItem i u PNone) /\
  run_outcome key [page (before ++ PDict fields :: after) (Some cursor)] =
    Returned (Some (b ++ mkReadwiseItem i u PNone :: a)).
Proof.
  intros Hi Hu Ht Hb Ha Hend.
  assert (Hitem : item_of_entry (PDict fields) = Some (mkReadwiseItem i u PNone)).
  { cbn. rewrite Hi, Hu. now destruct Ht as [ -> | -> ]. }
  split.
  - unfold parse_item. cbn [py_getitem py_get bind]. rewrite Hi, Hu.
    now destruct Ht as [ -> | -> ].
  - unfold run_outcome, get_list_of_all_articles.
    rewrite (while_loop_terminal_page key _ [] (b ++ mkReadwiseItem i u PNone :: a)
               cursor initial_state eq_refl); [ reflexivity | | reflexivity | exact Hend ].
    unfold page_items, page, field. cbn [is_error body dict_get String.eqb].
    cbn. apply items_of_entries_app; [ exact Hb | ].
    change (items_of_entries (PDict fields :: after))
      with (match item_of_entry (PDict fields), items_of_entries after with
            | Some it, Some its => Some (it :: its)
            | _, _ => None
            end).
    now rewrite Hitem, Ha.
Qed.

(** ** What an iteration that goes on has seen *)

(** The loop body goes on only after a response without error status whose
    body is an object with a [results] field; the flag and the cursor then
    follow that object's [nextPageCursor] field. *)
Lemma loop_body_continue_inv (st st' : state) (r : Response) :
  loop_body st r = Continue st' ->
  is_error r = false /\
  is_some (field "results" r) = true /\
  next_page_cursor st' =
    match field "nextPageCursor" r with
    | Some c => c
    | None => next_page_cursor st
    end /\
  parsed_all_results st' =
    match field "nextPageCursor" r with
    | Some c => if empty_or_null c then true else parsed_all_results st
    | None => parsed_all_results st
    end.
Proof.
  unfold loop_body, json, field. intros H.
  destruct (is_error r); [ discriminate | ].
  destruct (body r) as [ v | ]; [ | discriminate ].
  destruct v as [ | b | n | l | s | xs | kvs ]; try discriminate.
  - (* a str body cannot be subscripted *)
    cbn [py_contains] in H. unfold pagination, parse_items in H.
    cbn [py_contains py_getitem bind] in H.
    destruct (is_some (String.index 0 "results" s)); [ | discriminate ].
    destruct (is_some (String.index 0 "nextPageCursor" s)); discriminate.
  - (* nor can a list body *)
    cbn [py_contains] in H. unfold pagination, parse_items in H.
    cbn [py_contains py_getitem bind] in H.
    destruct (existsb _ xs); [ | discriminate ].
    destruct (existsb _ xs); discriminate.
  - cbn [py_contains] in H. unfold pagination in H. cbn [py_contains py_getitem bind] in H.
    destruct (dict_get "results" kvs) as [ v | ]; [ | discriminate ].
    cbn [is_some] in H.
    destruct (dict_get "nextPageCursor" kvs) as [ c | ]; cbn [is_some bind] in H.
    + destruct (parse_items (PDict kvs)); [ | discriminate ].
      inversion H; subst st'; cbn. rewrite empty_or_null_spec. now repeat split.
    + destruct (parse_items (PDict kvs)); [ | discriminate ].
      inversion H; subst st'; cbn. now repeat split.
Qed.

(** ** The cursor *)

Lemma make_request_params (key : string) (acc : option pyval) :
  (forall c, acc = Some c -> empty_or_null c = false) ->
  req_params (make_request key (cursor_value acc)) = params_of acc.
Proof.
  intros H. destruct acc as [ c | ]; [ | reflexivity ].
  specialize (H c eq_refl). now destruct c.
Qed.

Lemma requests_thread_cursor (key : string) (rs : list Response) :
  forall (st : state) (acc : option pyval),
    (parsed_all_results st = false ->
     next_page_cursor st = cursor_value acc /\
     forall c, acc = Some c -> empty_or_null c = false) ->
    forall (n : nat) (req : Request),
      nth_error (snd (while_loop key rs st)) n = Some req ->
      req_params req = params_of (fold_left supplied (firstn n rs) acc) /\
      forall c, fold_left supplied (firstn n rs) acc = Some c -> empty_or_null c = false.
Proof.
  induction rs as [ | r later IH ]; intros st acc Hinv n req Hn.
  - cbn in Hn. destruct (parsed_all_results st) eqn:Hst.
    + now destruct n.
    + destruct (Hinv eq_refl) as [Hcur Hne].
      destruct n as [ | n ]; [ | now destruct n ].
      cbn in Hn. inversion Hn; subst req. rewrite firstn_nil. cbn [fold_left].
      rewrite Hcur. split; [ now apply make_request_params | exact Hne ].
  - destruct (parsed_all_results st) eqn:Hst.
    + rewrite (while_loop_done key _ st Hst) in Hn. now destruct n.
    + destruct (Hinv eq_refl) as [Hcur Hne].
      rewrite (while_loop_step key r later st Hst) in Hn.
      assert (Hfirst : forall req0, Some (make_request key (next_page_cursor st)) = Some req0 ->
                req_params req0 = params_of acc).
      { intros req0 H0. inversion H0. rewrite Hcur. now apply make_request_params. }
      destruct n as [ | n ].
      * cbn [firstn fold_left]. split; [ | exact Hne ].
        apply Hfirst. now destruct (loop_body st r).
      * destruct (loop_body st r) as [ st' | v | e ] eqn:Hbody;
          cbn [snd nth_error] in Hn; try (now destruct n).
        cbn [firstn fold_left].
        apply (IH st' (supplied acc r)); [ | exact Hn ].
        intros Hst'.
        destruct (loop_body_continue_inv st st' r Hbody) as (_ & _ & Hc' & Hf').
        unfold supplied. destruct (field "nextPageCursor" r) as [ c | ].
        -- split; [ exact Hc' | ]. intros c0 H0. inversion H0; subst c0.
           rewrite Hst' in Hf'. now destruct (empty_or_null c).
        -- split; [ now rewrite Hc' | exact Hne ].
Qed.

(** The first request is always sent, and it has no query parameter. *)
Lemma first_request_has_no_cursor (key : string) (rs : list Response) :
  exists sent, run_requests key rs = make_request key PNone :: sent /\
               req_params (make_request key PNone) = None.
Proof.
  unfold run_requests, get_list_of_all_articles.
  destruct rs as [ | r later ].
  - now exists [].
  - rewrite (while_loop_step key r later initial_state eq_refl).
    destruct (loop_body initial_state r) as [ st' | v | e ].
    + now exists (snd (while_loop key later st')).
    + now exists [].
    + now exists [].
Qed.

(** C7: the cursor is never made up or altered by the client.  The request
    sent after [n] responses carries the [nextPageCursor] value that the
    latest of those responses to have the field supplied, as its
    [pageCursor] parameter, unchanged; it has no query parameter when none
    of them supplied one, so the first request has none.  A value that is
    sent back is never null or the empty string. *)
Theorem cursor_threading (key : string) (rs : list Response) (n : nat) (req : Request) :
  nth_error (run_requests key rs) n = Some req ->
  req_params req = params_of (last_supplied_cursor (firstn n rs)) /\
  (forall c, last_supplied_cursor (firstn n rs) = Some c -> empty_or_null c = false) /\
  (n = 0 -> req_params req = None).
Proof.
  intros Hn.
  assert (Hinit : parsed_all_results initial_state = false ->
                  next_page_cursor initial_state = cursor_value None /\
                  forall c, None = Some c -> empty_or_null c = false).
  { intros _. split; [ reflexivity | discriminate ]. }
  destruct (requests_thread_cursor key rs initial_state None Hinit n req Hn)
    as [Hp Hne].
  repeat split; try assumption.
  intros ->. exact Hp.
Qed.

(** ** Malformed entries *)

Lemma parse_item_dict_exn (fields : list (string * pyval)) (e : exn) :
  parse_item (PDict fields) = Exc e -> lookup_failure e.
Proof.
  unfold parse_item, lookup_failure. cbn [py_getitem py_get bind].
  destruct (dict_get "id" fields); cbn [bind].
  - destruct (dict_get "url" fields); cbn [bind].
    + now destruct (dict_get "title" fields).
    + intros H. inversion H. now right.
  - intros H. inversion H. now left.
Qed.

Lemma parse_item_missing (fields : list (string * pyval)) :
  dict_get "id" fields = None \/ dict_get "url" fields = None ->
  exists e, parse_item (PDict fields) = Exc e.
Proof.
  unfold parse_item. cbn [py_getitem py_get bind]. intros [ H | H ].
  - rewrite H. now exists (KeyError "id").
  - destruct (dict_get "id" fields); cbn [bind].
    + rewrite H. now exists (KeyError "url").
    + now exists (KeyError "id").
Qed.

Lemma mapM_parse_item_missing (entries : list pyval) (fields : list (string * pyval)) :
  In (PDict fields) entries ->
  dict_get "id" fields = None \/ dict_get "url" fields = None ->
  exists e, mapM parse_item entries = Exc e /\
            (forallb is_dict entries = true -> lookup_failure e).
Proof.
  intros Hin Hmiss. induction entries as [ | x rest IH ]; [ contradiction | ].
  cbn [mapM forallb].
  destruct (parse_item x) as [ it | e ] eqn:Hx; cbn [bind].
  - destruct Hin as [ -> | Hin ].
    + destruct (parse_item_missing fields Hmiss) as [e He]. congruence.
    + destruct (IH Hin) as (e & He & Hk). exists e. rewrite He. cbn [bind].
      split; [ reflexivity | ]. intros H. apply andb_prop in H as [_ H]. now apply Hk.
  - exists e. split; [ reflexivity | ]. intros H. apply andb_prop in H as [H _].
    destruct x; try discriminate. now apply (parse_item_dict_exn kvs).
Qed.

(** C8: on a successful page with a results entry that has no [id] or no
    [url], the comprehension raises and the exception escapes the function:
    the outcome is an exception, not the None of a clean failure.  When the
    entries are all objects the exception is the KeyError of the lookup of
    [id] or of [url]. *)
Theorem missing_id_or_url_raises (key : string) (earlier later : list Response)
    (r : Response) (kvs fields : list (string * pyval)) (entries : list pyval) :
  forallb intermediate_page earlier = true ->
  is_error r = false ->
  body r = Some (PDict kvs) ->
  dict_get "results" kvs = Some (PList entries) ->
  In (PDict fields) entries ->
  dict_get "id" fields = None \/ dict_get "url" fields = None ->
  exists e,
    run_outcome key (earlier ++ r :: later) = Raised e /\
    (forallb is_dict entries = true -> lookup_failure e).
Proof.
  intros Hall He Hb Hres Hin Hmiss.
  destruct (mapM_parse_item_missing entries fields Hin Hmiss) as (e & Hmap & Hk).
  exists e. split; [ | exact Hk ].
  destruct (run_pages key earlier (r :: later) Hall) as (st' & Hst' & _ & Hout & _).
  rewrite Hout, (while_loop_step key r later st' Hst').
  unfold loop_body, json. rewrite He, Hb. cbn [py_contains]. rewrite Hres.
  cbn [is_some]. unfold pagination, parse_items. cbn [py_contains py_getitem bind].
  rewrite Hres. cbn [bind py_iter]. rewrite Hmap.
  now destruct (dict_get "nextPageCursor" kvs).
Qed.

(** ** Termination *)

Lemma loop_body_ends_loop (st st' : state) (r : Response) :
  ends_loop r = true ->
  loop_body st r = Continue st' ->
  parsed_all_results st' = true.
Proof.
  intros Hend Hbody.
  destruct (loop_body_continue_inv st st' r Hbody) as (He & Hres & _ & Hflag).
  unfold ends_loop in Hend. rewrite He, Hres in Hend. cbn in Hend.
  rewrite Hflag. destruct (field "nextPageCursor" r) as [ c | ]; [ | discriminate ].
  now rewrite Hend.
Qed.

Lemma while_loop_terminates (key : string) (rs : list Response) :
  forall (i : nat) (r : Response) (st : state),
    nth_error rs i = Some r ->
    ends_loop r = true ->
    fst (while_loop key rs st) <> Pending /\
    length (snd (while_loop key rs st)) <= S i.
Proof.
  induction rs as [ | r0 later IH ]; intros i r st Hi Hend.
  - now destruct i.
  - destruct (parsed_all_results st) eqn:Hst.
    + rewrite (while_loop_done key _ st Hst). cbn. split; [ discriminate | lia ].
    + rewrite (while_loop_step key r0 later st Hst).
      destruct (loop_body st r0) as [ st' | v | e ] eqn:Hbody;
        try (cbn; split; [ discriminate | lia ]).
      cbn [fst snd length]. destruct i as [ | i ].
      * cbn in Hi. inversion Hi; subst r0.
        rewrite (while_loop_done key later st' (loop_body_ends_loop st st' r Hend Hbody)).
        cbn. split; [ discriminate | lia ].
      * cbn in Hi. destruct (IH i r st' Hi Hend) as [Hout Hlen].
        split; [ exact Hout | lia ].
Qed.

(** A response of which [ends_loop] holds ends the run, by a return or by
    an exception, and no request is sent after the one it answers. *)
Lemma terminates_on_ending_response (key : string) (rs : list Response)
    (i : nat) (r : Response) :
  nth_error rs i = Some r ->
  ends_loop r = true ->
  run_outcome key rs <> Pending /\
  length (run_requests key rs) <= S i.
Proof.
  intros Hi Hend. exact (while_loop_terminates key rs i r initial_state Hi Hend).
Qed.

(** ** The theorems at sample responses *)

(** One page, then a body that is not JSON under a 200 status: the decoder's
    exception escapes. *)
Lemma unparsable_body_witness :
  forallb intermediate_page [first_page] = true /\
  body not_json = None /\
  run_outcome "key" ([first_page] ++ not_json :: []) =
    (if is_error not_json then Returned None else Raised JSONDecodeError).
Proof.
  split; [ reflexivity | ]. split; [ reflexivity | ].
  apply (unparsable_body "key" [first_page] [] not_json); reflexivity.
Defined.

(** A body that is not valid JSON, sent with a 200 status, does not make
    the function return None: JSONDecodeError escapes it. *)
Lemma unparsable_body_escapes :
  body not_json = None /\
  run_outcome "key" [not_json] = Raised JSONDecodeError /\
  run_outcome "key" [not_json] <> Returned None.
Proof.
  split; [ reflexivity | ]. split; [ reflexivity | ]. discriminate.
Qed.

Lemma terminal_page_items_included_witness :
  forallb intermediate_page [first_page] = true /\
  page_items last_page = Some [mkReadwiseItem (PStr "2") (PStr "u2") (PStr "T")] /\
  field "nextPageCursor" last_page = Some PNone /\
  empty_or_null PNone = true /\
  run_outcome "key" ([first_page] ++ last_page :: []) =
    Returned (Some (items_of_pages [first_page] ++
                    [mkReadwiseItem (PStr "2") (PStr "u2") (PStr "T")])) /\
  length (run_requests "key" ([first_page] ++ last_page :: [])) = S (length [first_page]).
Proof.
  split; [ reflexivity | ]. split; [ reflexivity | ].
  split; [ reflexivity | ]. split; [ reflexivity | ].
  apply (terminal_page_items_included "key" [first_page] [] last_page
           [mkReadwiseItem (PStr "2") (PStr "u2") (PStr "T")] PNone); reflexivity.
Defined.

Lemma optional_title_witness :
  parse_item (entry "1" "u1") = Ok (item "1" "u1") /\
  run_outcome "key" [page ([] ++ entry "1" "u1" :: []) (Some PNone)] =
    Returned (Some ([] ++ item "1" "u1" :: [])).
Proof.
  apply (optional_title "key" [("id", PStr "1"); ("url", PStr "u1")]
           (PStr "1") (PStr "u1") PNone [] [] [] []);
    try reflexivity.
  left; reflexivity.
Defined.

Lemma cursor_threading_witness :
  req_params (make_request "key" (PStr "c1")) =
    params_of (last_supplied_cursor (firstn 1 [first_page; last_page])) /\
  (forall c, last_supplied_cursor (firstn 1 [first_page; last_page]) = Some c ->
             empty_or_null c = false) /\
  (1 = 0 -> req_params (make_request "key" (PStr "c1")) = None).
Proof.
  apply (cursor_threading "key" [first_page; last_page] 1
           (make_request "key" (PStr "c1"))).
  reflexivity.
Defined.

Lemma missing_id_or_url_raises_witness :
  exists e,
    run_outcome "key" ([first_page] ++ broken_page :: []) = Raised e /\
    (forallb is_dict [entry "1" "u1"; PDict [("url", PStr "u2")]] = true ->
     lookup_failure e).
Proof.
  apply (missing_id_or_url_raises "key" [first_page] [] broken_page
           [("results", PList [entry "1" "u1"; PDict [("url", PStr "u2")]]);
            ("nextPageCursor", PNone)]
           [("url", PStr "u2")]);
    try reflexivity.
  - right; left; reflexivity.
  - left; reflexivity.
Defined.

(** Two pages, the second one closing the pagination with a null cursor:
    the items of both, in page order, after two requests, the second of
    which carries the cursor of the first page. *)
Example two_pages_null_cursor :
  get_list_of_all_articles "key" [first_page; last_page] =
  (Returned (Some [item "1" "u1";
                   mkReadwiseItem (PStr "2") (PStr "u2") (PStr "T")]),
   [make_request "key" PNone; make_request "key" (PStr "c1")]).
Proof. reflexivity. Qed.

(** A 200 response whose body is the JSON value null: the membership test
    of line 32 is on None and raises TypeError. *)
Example null_body_raises :
  run_outcome "key" [null_body] = Raised TypeError.
Proof. reflexivity. Qed.

(** ** More on the loop body *)

Lemma pagination_results (j : pyval) (st st1 : state) :
  pagination j st = Ok st1 -> results st1 = results st.
Proof.
  unfold pagination. destruct (py_contains "nextPageCursor" j) as [ [ | ] | ];
    cbn [bind]; try discriminate.
  - destruct (py_getitem j "nextPageCursor"); cbn [bind]; [ | discriminate ].
    intros H. now inversion H.
  - intros H. now inversion H.
Qed.

Lemma loop_body_continue_results (st st' : state) (r : Response) :
  loop_body st r = Continue st' -> results st' = results st ++ parsed_of r.
Proof.
  unfold loop_body, parsed_of. destruct (is_error r); [ discriminate | ].
  destruct (json r) as [ j | ]; [ | discriminate ].
  destruct (py_contains "results" j) as [ [ | ] | ]; try discriminate.
  destruct (pagination j st) as [ st1 | ] eqn:Hp; [ | discriminate ].
  destruct (parse_items j) as [ parsed | ]; [ | discriminate ].
  intros H. inversion H. cbn. now rewrite (pagination_results j st st1 Hp).
Qed.

(** The loop body returns only None, and only from lines 28 and 33. *)
Lemma loop_body_return_inv (st : state) (r : Response) (v : option (list ReadwiseItem)) :
  loop_body st r = Return v ->
  v = None /\
  (is_error r = true \/
   exists j, body r = Some j /\ py_contains "results" j = Ok false).
Proof.
  unfold loop_body, json. destruct (is_error r).
  - intros H. inversion H. split; [ reflexivity | now left ].
  - destruct (body r) as [ j | ]; [ | discriminate ].
    destruct (py_contains "results" j) as [ [ | ] | ] eqn:Hc; try discriminate.
    + destruct (pagination j st); [ | discriminate ].
      destruct (parse_items j); discriminate.
    + intros H. inversion H. split; [ reflexivity | ]. right. now exists j.
Qed.

Lemma mapM_parse_item_exn (entries : list pyval) (e : exn) :
  mapM parse_item entries = Exc e -> type_or_lookup_error e.
Proof.
  induction entries as [ | x rest IH ]; [ discriminate | ].
  cbn [mapM]. destruct (parse_item x) as [ it | e' ] eqn:Hx; cbn [bind].
  - destruct (mapM parse_item rest) as [ its | e' ]; cbn [bind]; [ discriminate | ].
    intros H. inversion H; subst e'. now apply IH.
  - intros H. inversion H; subst e'.
    destruct x as [ | | | | | | fields ];
      try (cbn in Hx; inversion Hx; left; reflexivity).
    right. now apply (parse_item_dict_exn fields).
Qed.

(** What the loop body raises: the decoder's exception when the body does
    not decode, and otherwise a TypeError or the KeyError of [id] or
    [url]. *)
Lemma loop_body_raise_inv (st : state) (r : Response) (e : exn) :
  loop_body st r = Raise e ->
  match body r with
  | None => e = JSONDecodeError
  | Some _ => type_or_lookup_error e
  end.
Proof.
  unfold loop_body, json. destruct (is_error r); [ discriminate | ].
  destruct (body r) as [ j | ]; [ | intros H; now inversion H ].
  assert (Htype : forall e', Raise TypeError = Raise e' -> type_or_lookup_error e')
    by (intros e' H; inversion H; now left).
  destruct j as [ | b | n | l | s | xs | kvs ]; cbn [py_contains];
    try (now apply Htype).
  - unfold pagination, parse_items. cbn [py_contains py_getitem bind].
    destruct (is_some (String.index 0 "results" s)); [ | discriminate ].
    destruct (is_some (String.index 0 "nextPageCursor" s)); now apply Htype.
  - unfold pagination, parse_items. cbn [py_contains py_getitem bind].
    destruct (existsb _ xs); [ | discriminate ].
    destruct (existsb _ xs); now apply Htype.
  - unfold pagination, parse_items. cbn [py_contains py_getitem bind].
    destruct (dict_get "results" kvs) as [ v | ]; [ | discriminate ].
    cbn [is_some bind].
    assert (Hparse : forall e', (items <- py_iter v ;; mapM parse_item items) = Exc e' ->
                                type_or_lookup_error e').
    { intros e'. destruct v as [ | | | | s | xs | kvs' ]; cbn [py_iter bind];
        try (intros H; inversion H; now left); apply mapM_parse_item_exn. }
    destruct (dict_get "nextPageCursor" kvs) as [ c | ]; cbn [is_some bind];
      (destruct (items <- py_iter v ;; mapM parse_item items) as [ its | e' ] eqn:Hv;
       [ discriminate | intros H; inversion H; subst e'; now apply Hparse ]).
Qed.

(** ** The requests of a run *)

Lemma while_loop_request_count (key : string) (rs : list Response) :
  forall st : state,
    length (snd (while_loop key rs st)) <= S (length rs) /\
    (fst (while_loop key rs st) = Pending <->
     length (snd (while_loop key rs st)) = S (length rs)).
Proof.
  induction rs as [ | r later IH ]; intros st.
  - cbn. destruct (parsed_all_results st); cbn; split; try lia;
      split; try discriminate; reflexivity.
  - destruct (parsed_all_results st) eqn:Hst.
    + rewrite (while_loop_done key _ st Hst). cbn. split; [ lia | ].
      split; discriminate.
    + rewrite (while_loop_step key r later st Hst).
      destruct (loop_body st r) as [ st' | v | e ]; cbn [fst snd length].
      * destruct (IH st') as [Hle Hiff]. split; [ lia | ].
        rewrite Hiff. split; lia.
      * split; [ lia | ]. split; [ discriminate | lia ].
      * split; [ lia | ]. split; [ discriminate | lia ].
Qed.

(** A run sends at least one request and at most one more than the
    responses it was given; it has sent one more exactly when it is still
    awaiting a response. *)
Theorem one_request_per_response (key : string) (rs : list Response) :
  1 <= length (run_requests key rs) /\
  length (run_requests key rs) <= S (length rs) /\
  (run_outcome key rs = Pending <->
   length (run_requests key rs) = S (length rs)).
Proof.
  destruct (while_loop_request_count key rs initial_state) as [Hle Hiff].
  split; [ | split; assumption ].
  unfold run_requests, get_list_of_all_articles.
  destruct rs as [ | r later ]; [ cbn; lia | ].
  rewrite (while_loop_step key r later initial_state eq_refl).
  destruct (loop_body initial_state r); cbn; lia.
Qed.

(** ** What a return tells about the responses *)

Lemma while_loop_returned (key : string) (rs : list Response) :
  forall (st : state) (v : option (list ReadwiseItem)),
    parsed_all_results st = false ->
    fst (while_loop key rs st) = Returned v ->
    exists (n : nat) (r : Response),
      length (snd (while_loop key rs st)) = S n /\
      nth_error rs n = Some r /\
      match v with
      | None =>
          is_error r = true \/
          exists j, body r = Some j /\ py_contains "results" j = Ok false
      | Some its =>
          (exists c, field "nextPageCursor" r = Some c /\ empty_or_null c = true) /\
          its = results st ++ flat_map parsed_of (firstn (S n) rs)
      end.
Proof.
  induction rs as [ | r later IH ]; intros st v Hst Hout.
  - cbn in Hout. rewrite Hst in Hout. discriminate.
  - rewrite (while_loop_step key r later st Hst) in *.
    destruct (loop_body st r) as [ st' | v0 | e ] eqn:Hbody; cbn [fst snd length] in *.
    + destruct (parsed_all_results st') eqn:Hst'.
      * rewrite (while_loop_done key later st' Hst') in *. cbn [fst snd length] in *.
        inversion Hout; subst v. exists 0, r.
        split; [ reflexivity | ]. split; [ reflexivity | ].
        destruct (loop_body_continue_inv st st' r Hbody) as (_ & _ & _ & Hflag).
        rewrite Hst', Hst in Hflag. split.
        -- destruct (field "nextPageCursor" r) as [ c | ]; [ | discriminate ].
           exists c. split; [ reflexivity | ]. now destruct (empty_or_null c).
        -- cbn. rewrite app_nil_r. now apply loop_body_continue_results.
      * destruct (IH st' v Hst' Hout) as (n & r' & Hlen & Hnth & Hv).
        exists (S n), r'. split; [ now rewrite Hlen | ]. split; [ exact Hnth | ].
        destruct v as [ its | ]; [ | exact Hv ].
        destruct Hv as [Hc Hits]. split; [ exact Hc | ].
        rewrite Hits, (loop_body_continue_results st st' r Hbody).
        change (firstn (S (S n)) (r :: later)) with (r :: firstn (S n) later).
        cbn [flat_map]. now rewrite app_assoc.
    + inversion Hout; subst v0.
      destruct (loop_body_return_inv st r v Hbody) as [-> Hfail].
      exists 0, r. now repeat split.
    + discriminate.
Qed.

(** When the function returns None, the response to its last request had
    an error status, or a body in which the membership test of line 32
    found no [results]: None never comes from anything else. *)
Theorem none_only_from_failure (key : string) (rs : list Response) :
  run_outcome key rs = Returned None ->
  exists (n : nat) (r : Response),
    length (run_requests key rs) = S n /\
    nth_error rs n = Some r /\
    (is_error r = true \/
     exists j, body r = Some j /\ py_contains "results" j = Ok false).
Proof.
  intros Hout. exact (while_loop_returned key rs initial_state None eq_refl Hout).
Qed.

(** When the function returns a list, the response to its last request had
    a [nextPageCursor] field that was null or the empty string, and the
    list is what the comprehension built from the responses read, one after
    the other in the order they came. *)
Theorem list_only_after_terminal_cursor (key : string) (rs : list Response)
    (its : list ReadwiseItem) :
  run_outcome key rs = Returned (Some its) ->
  exists (n : nat) (r : Response) (c : pyval),
    length (run_requests key rs) = S n /\
    nth_error rs n = Some r /\
    field "nextPageCursor" r = Some c /\
    empty_or_null c = true /\
    its = flat_map parsed_of (firstn (S n) rs).
Proof.
  intros Hout.
  destruct (while_loop_returned key rs initial_state (Some its) eq_refl Hout)
    as (n & r & Hlen & Hnth & (c & Hc & Hend) & Hits).
  exists n, r, c. now repeat split.
Qed.

Lemma while_loop_raised (key : string) (rs : list Response) :
  forallb (fun r => is_some (body r)) rs = true ->
  forall (st : state) (e : exn),
    fst (while_loop key rs st) = Raised e -> type_or_lookup_error e.
Proof.
  induction rs as [ | r later IH ]; intros Hall st e Hout.
  - cbn in Hout. destruct (parsed_all_results st); discriminate.
  - cbn [forallb] in Hall. apply andb_prop in Hall as [Hr Hall].
    destruct (parsed_all_results st) eqn:Hst.
    + rewrite (while_loop_done key _ st Hst) in Hout. discriminate.
    + rewrite (while_loop_step key r later st Hst) in Hout.
      destruct (loop_body st r) as [ st' | v | e' ] eqn:Hbody; cbn [fst] in Hout.
      * now apply (IH Hall st').
      * discriminate.
      * inversion Hout; subst e'. pose proof (loop_body_raise_inv st r e Hbody) as H.
        destruct (body r); [ exact H | discriminate ].
Qed.

(** Once the bodies have been decoded, what lines 32-44 do with them can
    raise a TypeError or the KeyError of a missing [id] or [url], and
    nothing else: no KeyError for [results] or [nextPageCursor], which are
    subscripted only after the membership test, and no AttributeError from
    [get], which is called only on what was subscripted before. *)
Theorem exceptions_after_decoding (key : string) (rs : list Response) (e : exn) :
  forallb (fun r => is_some (body r)) rs = true ->
  run_outcome key rs = Raised e ->
  type_or_lookup_error e.
Proof. intros Hall. now apply while_loop_raised. Qed.

(** ** Entries and bodies of other shapes *)

Lemma parse_item_ok_inv (x : pyval) (it : ReadwiseItem) :
  parse_item x = Ok it -> item_of_entry x = Some it.
Proof.
  destruct x as [ | | | | | | fields ]; try discriminate.
  unfold parse_item. cbn [py_getitem py_get bind item_of_entry].
  destruct (dict_get "id" fields); cbn [bind]; [ | discriminate ].
  destruct (dict_get "url" fields); cbn [bind]; [ | discriminate ].
  destruct (dict_get "title" fields); cbn [bind]; intros H; now inversion H.
Qed.

(** The comprehension builds a list exactly when every entry is an object
    with [id] and [url]; the list then has one item for each entry, in
    order, with the entry's [id] and [url], its [title] or None, and
    nothing of its other fields. *)
Theorem comprehension_succeeds_iff (entries : list pyval) (its : list ReadwiseItem) :
  mapM parse_item entries = Ok its <-> items_of_entries entries = Some its.
Proof.
  split; [ | apply mapM_parse_item ].
  revert its. induction entries as [ | x rest IH ]; intros its H; cbn in H.
  - now inversion H.
  - destruct (parse_item x) as [ it | ] eqn:Hx; cbn [bind] in H; [ | discriminate ].
    destruct (mapM parse_item rest) as [ its' | ]; cbn [bind] in H; [ | discriminate ].
    inversion H; subst its. cbn [items_of_entries].
    now rewrite (parse_item_ok_inv x it Hx), (IH its' eq_refl).
Qed.

(** The test passes exactly when the key is in the environment and the
    function returns, whatever it returns: None passes as a list does. *)
Theorem test_passes_iff_returns (api_key : option string) (rs : list Response) :
  test_readwise api_key rs = Passed <->
  exists key v, api_key = Some key /\ run_outcome key rs = Returned v.
Proof.
  unfold test_readwise. split.
  - destruct api_key as [ key | ]; [ | discriminate ].
    destruct (run_outcome key rs) as [ v | e | ] eqn:Hrun; try discriminate.
    intros _. exists key, v. split; [ reflexivity | exact Hrun ].
  - intros (key & v & -> & ->). reflexivity.
Qed.

(** A body that is valid JSON but not an object, under a status that is not
    an error, never gives items: null, a boolean or a number raises
    TypeError at the membership test; an array or a string gives None,
    unless it holds [results] as an element or as a substring, and then the
    subscript raises TypeError. *)
Theorem body_not_an_object (key : string) (earlier later : list Response)
    (r : Response) (j : pyval) :
  forallb intermediate_page earlier = true ->
  is_error r = false ->
  body r = Some j ->
  is_dict j = false ->
  run_outcome key (earlier ++ r :: later) =
  match j with
  | PList xs =>
      if existsb (fun x => py_eq_str x "results") xs
      then Raised TypeError else Returned None
  | PStr s =>
      if is_some (String.index 0 "results" s)
      then Raised TypeError else Returned None
  | _ => Raised TypeError
  end.
Proof.
  intros Hall He Hb Hj.
  destruct (run_pages key earlier (r :: later) Hall) as (st' & Hst' & _ & Hout & _).
  rewrite Hout, (while_loop_step key r later st' Hst').
  unfold loop_body, json. rewrite He, Hb.
  destruct j as [ | b | n | l | s | xs | kvs ]; try discriminate; try reflexivity.
  - cbn [py_contains]. unfold pagination, parse_items. cbn [py_contains py_getitem bind].
    destruct (is_some (String.index 0 "results" s)); [ | reflexivity ].
    now destruct (is_some (String.index 0 "nextPageCursor" s)).
  - cbn [py_contains]. unfold pagination, parse_items. cbn [py_contains py_getitem bind].
    destruct (existsb _ xs); [ | reflexivity ].
    now destruct (existsb _ xs).
Qed.

(** A [results] field that is not an array, in an object under a status
    that is not an error, makes the comprehension raise TypeError: on a
    null, a boolean or a number because it cannot be iterated, on an object
    or a string because its keys or characters cannot be subscripted.  Only
    the empty object and the empty string pass, as a page without items. *)
Theorem results_not_an_array (key : string) (earlier later : list Response)
    (r : Response) (kvs : list (string * pyval)) (v : pyval) :
  forallb intermediate_page earlier = true ->
  is_error r = false ->
  body r = Some (PDict kvs) ->
  dict_get "results" kvs = Some v ->
  is_list v = false ->
  v <> PDict [] ->
  v <> PStr "" ->
  run_outcome key (earlier ++ r :: later) = Raised TypeError.
Proof.
  intros Hall He Hb Hres Hv Hd Hs.
  destruct (run_pages key earlier (r :: later) Hall) as (st' & Hst' & _ & Hout & _).
  rewrite Hout, (while_loop_step key r later st' Hst').
  unfold loop_body, json. rewrite He, Hb. cbn [py_contains]. rewrite Hres.
  cbn [is_some]. unfold pagination, parse_items. cbn [py_contains py_getitem bind].
  rewrite Hres. cbn [bind].
  assert (Hparse : (items <- py_iter v ;; mapM parse_item items) = Exc TypeError).
  { destruct v as [ | | | | s | xs | kvs' ]; try reflexivity; try discriminate.
    - destruct s; [ now contradiction Hs | reflexivity ].
    - destruct kvs' as [ | [k x] rest ]; [ now contradiction Hd | reflexivity ]. }
  rewrite Hparse. now destruct (dict_get "nextPageCursor" kvs).
Qed.

(** ** These theorems at sample responses *)

Lemma none_only_from_failure_witness :
  exists (n : nat) (r : Response),
    length (run_requests "key" [first_page; no_results]) = S n /\
    nth_error [first_page; no_results] n = Some r /\
    (is_error r = true \/
     exists j, body r = Some j /\ py_contains "results" j = Ok false).
Proof.
  apply (none_only_from_failure "key" [first_page; no_results]). reflexivity.
Defined.

Lemma list_only_after_terminal_cursor_witness :
  exists (n : nat) (r : Response) (c : pyval),
    length (run_requests "key" [first_page; last_page]) = S n /\
    nth_error [first_page; last_page] n = Some r /\
    field "nextPageCursor" r = Some c /\
    empty_or_null c = true /\
    [item "1" "u1"; mkReadwiseItem (PStr "2") (PStr "u2") (PStr "T")] =
      flat_map parsed_of (firstn (S n) [first_page; last_page]).
Proof.
  apply (list_only_after_terminal_cursor "key" [first_page; last_page]
           [item "1" "u1"; mkReadwiseItem (PStr "2") (PStr "u2") (PStr "T")]).
  reflexivity.
Defined.

Lemma exceptions_after_decoding_witness : type_or_lookup_error (KeyError "id").
Proof.
  apply (exceptions_after_decoding "key" [first_page; broken_page] (KeyError "id"));
    reflexivity.
Defined.

Lemma body_not_an_object_witness :
  run_outcome "key"
    ([first_page] ++ {| is_error := false; body := Some (PList []) |} :: []) =
  (if existsb (fun x => py_eq_str x "results") [] then Raised TypeError
   else Returned None).
Proof.
  apply (body_not_an_object "key" [first_page] []
           {| is_error := false; body := Some (PList []) |} (PList []));
    reflexivity.
Defined.

Lemma results_not_an_array_witness :
  run_outcome "key"
    ([first_page] ++
     {| is_error := false; body := Some (PDict [("results", PNone)]) |} :: []) =
  Raised TypeError.
Proof.
  apply (results_not_an_array "key" [first_page] []
           {| is_error := false; body := Some (PDict [("results", PNone)]) |}
           [("results", PNone)] PNone);
    try reflexivity; discriminate.
Defined.

(** The test passes on a server that answers 500. *)
Example test_passes_on_failure :
  run_outcome "key" [server_error] = Returned None /\
  test_readwise (Some "key") [server_error] = Passed.
Proof. split; reflexivity. Qed.

(** ** Status codes and failure *)

Lemma status_is_error_spec (code : Z) :
  status_is_error code = true <-> (400 <= code <= 599)%Z.
Proof. unfold status_is_error. rewrite andb_true_iff, !Z.leb_le. reflexivity. Qed.

(** Pages after which the loop goes on, and nothing else, leave the run
    awaiting the response to one more request. *)
Lemma only_intermediate_pages_pending (key : string) (rs : list Response) :
  forallb intermediate_page rs = true ->
  run_outcome key rs = Pending /\
  length (run_requests key rs) = S (length rs).
Proof.
  intros Hall.
  destruct (run_pages key rs [] Hall) as (st' & Hst' & _ & Hout & Hlen).
  rewrite app_nil_r in Hout, Hlen. rewrite Hout, Hlen. cbn. rewrite Hst'. cbn.
  split; [ reflexivity | lia ].
Qed.

(** C3, as the code has it: when a request is answered with an error
    status, which is a status from 400 to 599, or with a JSON object that
    has no [results] field, the function returns None, whatever the number
    of pages fetched before; the items gathered so far are dropped. *)
Theorem error_status_or_object_without_results (key : string)
    (earlier later : list HttpResponse) (h : HttpResponse) :
  forallb intermediate_page (map received earlier) = true ->
  (400 <= status_code h <= 599)%Z \/
  (exists kvs, content h = Some (PDict kvs) /\ dict_get "results" kvs = None) ->
  run_outcome key (map received (earlier ++ h :: later)) = Returned None.
Proof.
  intros Hall Hfail. rewrite map_app. cbn [map].
  apply failure_drops_earlier_pages; [ exact Hall | ].
  destruct Hfail as [ Hcode | Hbody ].
  - left. now apply status_is_error_spec.
  - right. exact Hbody.
Qed.

(** C9, as the code has it: the function terminates on every response
    sequence in which some response has an error status, from 400 to 599,
    or a body without the [results] field, or a [nextPageCursor] that is
    null or the empty string: the run ends, by a return or by an exception,
    and no request is sent after the one that response answers. *)
Theorem terminates_on_error_status_or_ending_body (key : string)
    (hs : list HttpResponse) (i : nat) (h : HttpResponse) :
  nth_error hs i = Some h ->
  (400 <= status_code h <= 599)%Z \/
  field "results" (received h) = None \/
  (exists c, field "nextPageCursor" (received h) = Some c /\ empty_or_null c = true) ->
  run_outcome key (map received hs) <> Pending /\
  length (run_requests key (map received hs)) <= S i.
Proof.
  intros Hi Hend.
  apply (terminates_on_ending_response key (map received hs) i (received h)).
  - now apply map_nth_error.
  - unfold ends_loop. destruct Hend as [ Hcode | [ Hres | (c & Hc & Hnull) ] ].
    + apply status_is_error_spec in Hcode. cbn [received is_error]. now rewrite Hcode.
    + rewrite Hres. cbn. now rewrite orb_true_r.
    + rewrite Hc, Hnull. now rewrite orb_true_r.
Qed.

(** A status that is not a success is not always a failure, and a body
    without [results] is not always one: under 302, a status outside 400
    to 599, a body that is not JSON raises the decoder's exception and a
    terminal page is returned as under 200; under 200, the body null
    raises TypeError. *)
Lemma redirect_and_null_body_are_not_failures :
  status_is_success 302 = false /\
  run_outcome "key" (map received [with_status 302 not_json]) =
    Raised JSONDecodeError /\
  run_outcome "key" (map received [with_status 302 last_page]) =
    Returned (Some [mkReadwiseItem (PStr "2") (PStr "u2") (PStr "T")]) /\
  field "results" null_body = None /\
  run_outcome "key" (map received [with_status 200 null_body]) = Raised TypeError.
Proof. repeat split. Qed.

(** A status that is not a success does not always end the loop: under
    302 a page with a cursor is read as under 200, and the next request is
    sent. *)
Lemma redirect_page_does_not_end_the_loop :
  status_is_success 302 = false /\
  nth_error [with_status 302 first_page; with_status 302 first_page] 0 =
    Some (with_status 302 first_page) /\
  run_outcome "key"
    (map received [with_status 302 first_page; with_status 302 first_page]) =
    Pending /\
  length (run_requests "key"
    (map received [with_status 302 first_page; with_status 302 first_page])) = 3.
Proof. repeat split. Qed.

(** And so without end, for as long as such answers come. *)
Example redirect_pages_never_end (key : string) (n : nat) :
  run_outcome key (map received (repeat (with_status 302 first_page) n)) = Pending.
Proof.
  apply only_intermediate_pages_pending.
  induction n as [ | n IH ]; [ reflexivity | exact IH ].
Qed.

Lemma error_status_or_object_without_results_witness :
  forallb intermediate_page (map received [with_status 200 first_page]) = true /\
  (400 <= status_code (with_status 500 not_json) <= 599)%Z /\
  run_outcome "key"
    (map received ([with_status 200 first_page] ++ with_status 500 not_json :: [])) =
  Returned None.
Proof.
  split; [ reflexivity | ]. split; [ cbn; lia | ].
  apply (error_status_or_object_without_results "key" [with_status 200 first_page] []
           (with_status 500 not_json)); [ reflexivity | left; cbn; lia ].
Defined.

Lemma terminates_on_error_status_or_ending_body_witness :
  run_outcome "key"
    (map received [with_status 200 first_page; with_status 404 no_results;
                   with_status 200 first_page]) <> Pending /\
  length (run_requests "key"
    (map received [with_status 200 first_page; with_status 404 no_results;
                   with_status 200 first_page])) <= 2.
Proof.
  apply (terminates_on_error_status_or_ending_body "key"
           [with_status 200 first_page; with_status 404 no_results;
            with_status 200 first_page] 1 (with_status 404 no_results));
    [ reflexivity | left; cbn; lia ].
Defined.
